(** * The Observer pattern of [observer.py], embedded in Rocq

    The Python module declares the abstract interfaces [Subject] and
    [Observer], the class [ConcreteSubject] and two observers,
    [ConcreteObserverA] and [ConcreteObserverB].  The embedding keeps the
    object store explicit: objects are references, the list of subscribers
    is the single list object bound to the class attribute
    [ConcreteSubject._observers], and the attribute [state] lives in the
    instance dictionaries once it has been assigned. *)

From stdpp Require Import base option list gmap strings pretty.
From Stdlib Require Import ZArith Lia Permutation Ascii.

Local Open Scope Z_scope.

(** ** Values, exceptions and the object store *)

(** Object identity.  The classes of the module define no [__eq__], so
    [==], [in] and [list.remove] compare observers by identity. *)
Abbreviation ref := nat.

(** The values [state] can hold: the class default [None], or an [int]. *)
Inductive value : Type :=
  | VNone
  | VInt (n : Z).

(** The exceptions the module can raise: [list.remove] on an absent element
    raises [ValueError]; ordering [None] against an [int] raises
    [TypeError]. *)
Inductive exn : Type :=
  | ValueError
  | TypeError.

Inductive Result (A : Type) : Type :=
  | Ok (a : A)
  | Raise (e : exn).
Arguments Ok {A} a.
Arguments Raise {A} e.

(** One invocation [observer.update(subject)], with the value of
    [subject.state] at the moment of the call.  The log of invocations is
    instrumentation: the Python program keeps no such log. *)
Record call : Type := Call {
  callee : ref;
  call_subject : ref;
  state_seen : value
}.

Record World : Type := mkWorld {
  (** the list object bound to the class attribute
      [ConcreteSubject._observers = []] *)
  class_observers : list ref;
  (** the entry ['state'] of each instance [__dict__], when present *)
  instance_state : gmap nat value;
  (** the arguments of the [print] calls, oldest first *)
  stdout : list string;
  (** instrumentation: the [update] invocations made so far, oldest first *)
  calls : list call
}.

#[global] Instance value_eq_dec : EqDecision value.
Proof. solve_decision. Defined.
#[global] Instance exn_eq_dec : EqDecision exn.
Proof. solve_decision. Defined.
#[global] Instance call_eq_dec : EqDecision call.
Proof. solve_decision. Defined.

(** The state of the interpreter when the module has been loaded and no
    method has run yet. *)
Definition module_loaded : World :=
  {| class_observers := []; instance_state := ∅; stdout := []; calls := [] |}.

(** ** The monad of Python statements

    A statement transforms the store and either completes or raises; the
    store keeps every effect performed before the exception.  [None] means
    that the fuel given to a [for] loop ran out. *)
Definition M (A : Type) : Type := World -> option (Result A * World).

#[global] Instance M_ret : MRet M := fun A a w => Some (Ok a, w).

#[global] Instance M_bind : MBind M := fun A B f m w =>
  match m w with
  | Some (Ok a, w') => f a w'
  | Some (Raise e, w') => Some (Raise e, w')
  | None => None
  end.

Definition raise {A : Type} (e : exn) : M A := fun w => Some (Raise e, w).

Definition out_of_fuel {A : Type} : M A := fun _ => None.

Definition lift_result {A : Type} (r : Result A) : M A := fun w => Some (r, w).

Definition print (s : string) : M unit := fun w =>
  Some (Ok tt, {| class_observers := class_observers w;
                  instance_state := instance_state w;
                  stdout := stdout w ++ [s];
                  calls := calls w |}).

(** ** Attribute access on a [ConcreteSubject] instance *)

(** The class attribute [state: int = None]. *)
Definition ConcreteSubject_state : value := VNone.

(** [self.state]: the instance dictionary first, then the class. *)
Definition state_of (w : World) (self : ref) : value :=
  default ConcreteSubject_state (instance_state w !! self).

Definition getattr_state (self : ref) : M value := fun w =>
  Some (Ok (state_of w self), w).

Definition log_call (observer subject : ref) : M unit := fun w =>
  Some (Ok tt, {| class_observers := class_observers w;
                  instance_state := instance_state w;
                  stdout := stdout w;
                  calls := calls w ++ [Call observer subject
                             (state_of w subject)] |}).

(** [self.state = v] writes the instance dictionary. *)
Definition setattr_state (self : ref) (v : value) : M unit := fun w =>
  Some (Ok tt, {| class_observers := class_observers w;
                  instance_state := <[self := v]> (instance_state w);
                  stdout := stdout w;
                  calls := calls w |}).

(** [self._observers]: no statement of the module ever assigns
    [self._observers], so no instance dictionary has the entry and the
    lookup always reaches the class attribute, whatever [self] is. *)
Definition observers_of (w : World) (self : ref) : list ref :=
  class_observers w.

Definition getattr_observers (self : ref) : M (list ref) := fun w =>
  Some (Ok (observers_of w self), w).

(** In-place mutation of the list object reached through
    [self._observers]. *)
Definition mutate_observers (self : ref) (f : list ref -> list ref) : M unit :=
  fun w =>
  Some (Ok tt, {| class_observers := f (class_observers w);
                  instance_state := instance_state w;
                  stdout := stdout w;
                  calls := calls w |}).

(** ** Built-ins *)

Definition nl : string := String "010"%char EmptyString.

(** The texts the module prints. *)
Definition msg_attach : string :=
  (nl ++ "Subject: attach observer to the subject")%string.
Definition msg_detach : string :=
  (nl ++ "Subject: detach observer to the subject")%string.
Definition msg_notifying : string :=
  (nl ++ "Subject: Notifying observers...")%string.
Definition msg_important : string :=
  (nl ++ "Subject: I'm doing something important.")%string.
Definition msg_changed (st : string) : string :=
  ("Subject: My state has just changed to: " ++ st)%string.
Definition msg_react_A : string :=
  (nl ++ "ConcreteObserverA: react to the event")%string.
Definition msg_react_B : string :=
  (nl ++ "ConcreteObserverB: react to the event")%string.

(** [str(v)] as the f-string formats it. *)
Definition str (v : value) : string :=
  match v with
  | VNone => "None"%string
  | VInt n => pretty n
  end.

(** [a < b]: defined between two [int]s, [TypeError] otherwise. *)
Definition py_lt (a b : value) : Result bool :=
  match a, b with
  | VInt x, VInt y => Ok (x <? y)%Z
  | _, _ => Raise TypeError
  end.

(** [a > b]. *)
Definition py_gt (a b : value) : Result bool :=
  match a, b with
  | VInt x, VInt y => Ok (x >? y)%Z
  | _, _ => Raise TypeError
  end.

(** [l.remove(x)]: drops the first element equal to [x]; [None] stands for
    the [ValueError] of an absent [x]. *)
Fixpoint list_remove (x : ref) (l : list ref) : option (list ref) :=
  match l with
  | [] => None
  | y :: l' =>
      if decide (y = x) then Some l'
      else match list_remove x l' with
           | Some r => Some (y :: r)
           | None => None
           end
  end.

(** [randrange(start, stop)]: the values it can return, each of them once;
    the generator picks one of them with equal probability. *)
Definition randrange (start stop : Z) : list Z :=
  map (fun k => start + Z.of_nat k) (seq 0 (Z.to_nat (stop - start))).

(** ** [ConcreteSubject] *)

Section ConcreteSubject.

(** Dynamic dispatch of [observer.update(subject)] through the abstract
    method of [Observer]. *)
Variable update : ref -> ref -> M unit.

Definition attach (self observer : ref) : M unit :=
  print msg_attach;;
  mutate_observers self (fun l => l ++ [observer]).

Definition detach (self observer : ref) : M unit :=
  print msg_detach;;
  l ← getattr_observers self;
  match list_remove observer l with
  | Some l' => mutate_observers self (fun _ => l')
  | None => raise ValueError
  end.

(** The [for] loop of [notify].  The list iterator keeps an index into the
    live list object: each round reads the element at that index, if there
    is one, and moves on. *)
Fixpoint notify_loop (fuel : nat) (self : ref) (i : nat) : M unit :=
  match fuel with
  | O => out_of_fuel
  | S fuel' =>
      l ← getattr_observers self;
      match l !! i with
      | None => mret tt
      | Some observer =>
          log_call observer self;;
          update observer self;;
          notify_loop fuel' self (S i)
      end
  end.

Definition notify (fuel : nat) (self : ref) : M unit :=
  print msg_notifying;;
  notify_loop fuel self 0%nat.

(** The method once [randrange(0, 10)] has returned [draw]. *)
Definition do_some_business_logic (fuel : nat) (draw : Z) (self : ref) : M unit :=
  print msg_important;;
  setattr_state self (VInt draw);;
  st ← getattr_state self;
  print (msg_changed (str st));;
  notify fuel self.

(** The method with its call [randrange(0, 10)]: its outcomes, one for each
    value the generator can return, all equally likely. *)
Definition do_some_business_logic_outcomes (fuel : nat) (self : ref) (w : World)
  : list (option (Result unit * World)) :=
  map (fun draw => do_some_business_logic fuel draw self w) (randrange 0 10).

End ConcreteSubject.

(** ** The concrete observers *)

Inductive ObserverClass : Type :=
  | ConcreteObserverA
  | ConcreteObserverB.

Definition ConcreteObserverA_update (subject : ref) : M unit :=
  st ← getattr_state subject;
  b ← lift_result (py_lt st (VInt 8));
  if (b : bool) then print msg_react_A
  else mret tt.

Definition ConcreteObserverB_update (subject : ref) : M unit :=
  st ← getattr_state subject;
  b ← lift_result (py_gt st (VInt 4));
  if (b : bool) then print msg_react_B
  else mret tt.

(** [observer.update(subject)] when every observer is an instance of one of
    the two classes; [class_of] gives the class of each object. *)
Definition update_of (class_of : ref -> ObserverClass) (observer subject : ref) : M unit :=
  match class_of observer with
  | ConcreteObserverA => ConcreteObserverA_update subject
  | ConcreteObserverB => ConcreteObserverB_update subject
  end.


(** ** Callers

    A caller that issues subscription calls one after the other and goes on
    after a failed [detach] (a [try] around each call). *)
Inductive subscription_call : Type :=
  | CallAttach (observer : ref)
  | CallDetach (observer : ref).

Definition run_subscription (self : ref) (c : subscription_call) : M unit :=
  match c with
  | CallAttach o => attach self o
  | CallDetach o => detach self o
  end.

(** The store after the calls, with the outcome of each call. *)
Fixpoint replay (self : ref) (cs : list subscription_call) (w : World)
  : option (list (Result unit) * World) :=
  match cs with
  | [] => Some ([], w)
  | c :: cs' =>
      match run_subscription self c w with
      | Some (r, w') =>
          match replay self cs' w' with
          | Some (rs, w'') => Some (r :: rs, w'')
          | None => None
          end
      | None => None
      end
  end.

Definition is_ok {A : Type} (r : Result A) : bool :=
  match r with Ok _ => true | Raise _ => false end.

(** The [attach] calls of [cs]. *)
Fixpoint attach_calls (cs : list subscription_call) : nat :=
  match cs with
  | [] => 0%nat
  | CallAttach _ :: cs' => S (attach_calls cs')
  | CallDetach _ :: cs' => attach_calls cs'
  end.

(** The [detach] calls of [cs] that completed, given the outcomes [rs] of
    the calls. *)
Fixpoint successful_detaches (cs : list subscription_call) (rs : list (Result unit)) : nat :=
  match cs, rs with
  | CallDetach _ :: cs', r :: rs' =>
      ((if is_ok r then 1 else 0) + successful_detaches cs' rs')%nat
  | _ :: cs', _ :: rs' => successful_detaches cs' rs'
  | _, _ => 0%nat
  end.

(** The [__main__] block: one subject, one observer of each class.  The
    three draws of [randrange] are [d1], [d2] and [d3]. *)
Definition sbj : ref := 0%nat.
Definition observerA : ref := 1%nat.
Definition observerB : ref := 2%nat.

Definition main_class_of (o : ref) : ObserverClass :=
  if decide (o = observerB) then ConcreteObserverB else ConcreteObserverA.

Definition main (fuel : nat) (d1 d2 d3 : Z) : M unit :=
  attach sbj observerA;;
  attach sbj observerB;;
  do_some_business_logic (update_of main_class_of) fuel d1 sbj;;
  do_some_business_logic (update_of main_class_of) fuel d2 sbj;;
  detach sbj observerB;;
  do_some_business_logic (update_of main_class_of) fuel d3 sbj.

(** A caller that invokes any method of any [ConcreteSubject] instance, with
    observers of the two classes, and goes on whatever the outcome. *)
Inductive method_call : Type :=
  | MAttach (self observer : ref)
  | MDetach (self observer : ref)
  | MNotify (fuel : nat) (self : ref)
  | MBusinessLogic (fuel : nat) (draw : Z) (self : ref).

Definition run_method (class_of : ref -> ObserverClass) (c : method_call) : M unit :=
  match c with
  | MAttach self o => attach self o
  | MDetach self o => detach self o
  | MNotify fuel self => notify (update_of class_of) fuel self
  | MBusinessLogic fuel draw self =>
      do_some_business_logic (update_of class_of) fuel draw self
  end.

(** [do_some_business_logic] called on [s]: the one method that assigns
    [s.state]. *)
Definition is_business_logic_on (s : ref) (c : method_call) : bool :=
  match c with
  | MBusinessLogic _ _ self => bool_decide (self = s)
  | _ => false
  end.

(** [reachable class_of cs w]: the store is [w] after the calls [cs], made
    in that order since the module was loaded. *)
Inductive reachable (class_of : ref -> ObserverClass) : list method_call -> World -> Prop :=
  | reach_loaded : reachable class_of [] module_loaded
  | reach_call (cs : list method_call) (w : World) (c : method_call)
               (r : Result unit) (w' : World) :
      reachable class_of cs w ->
      run_method class_of c w = Some (r, w') ->
      reachable class_of (cs ++ [c]) w'.

(** ** Vocabulary of the statements *)

(** [update] called on the elements of a fixed list [l], in order, until one
    call raises: what the loop of [notify] does when no [update] touches
    the list of subscribers. *)
Fixpoint update_each (update : ref -> ref -> M unit) (self : ref) (l : list ref) : M unit :=
  match l with
  | [] => mret tt
  | observer :: l' =>
      log_call observer self;;
      update observer self;;
      update_each update self l'
  end.

(** An [update] that neither attaches nor detaches, and leaves the log of
    invocations to [notify]. *)
Definition update_frame (update : ref -> ref -> M unit) : Prop :=
  forall observer subject w r w',
    update observer subject w = Some (r, w') ->
    class_observers w' = class_observers w /\ calls w' = calls w.

(** The invocations logged since the store [w0]. *)
Definition calls_since (w0 w : World) : list call :=
  drop (length (calls w0)) (calls w).

(** The store once [lines] have been printed. *)
Definition printed (lines : list string) (w : World) : World :=
  {| class_observers := class_observers w;
     instance_state := instance_state w;
     stdout := stdout w ++ lines;
     calls := calls w |}.

(** The line [notify] prints before the loop. *)
Definition announced (w : World) : World := printed [msg_notifying] w.

(** The state of [self] in an outcome of a method. *)
Definition outcome_state (self : ref) (out : option (Result unit * World)) : value :=
  match out with
  | Some (_, w') => state_of w' self
  | None => VNone
  end.

(** How many of the invocations [cs] are calls to the [update] of [o]. *)
Definition times_called (o : ref) (cs : list call) : nat :=
  count_occ Nat.eq_dec (map callee cs) o.

(** What an observer of class [c] prints when it sees the state [n]. *)
Definition reaction (c : ObserverClass) (n : Z) : list string :=
  match c with
  | ConcreteObserverA => if (n <? 8)%Z then [msg_react_A] else []
  | ConcreteObserverB => if (n >? 4)%Z then [msg_react_B] else []
  end.

(** An [Observer] subclass whose [update] is [subject.detach(self)]: it
    unsubscribes on the first notification it receives. *)
Definition self_detaching_update (observer subject : ref) : M unit :=
  detach subject observer.

(** An [Observer] subclass whose [update] is [subject.attach(self)]: it
    subscribes once more each time it is notified. *)
Definition self_attaching_update (observer subject : ref) : M unit :=
  attach subject observer.

(** The elements at positions 0, 2, 4, ... and at positions 1, 3, 5, ... *)
Fixpoint evens (l : list ref) : list ref :=
  match l with
  | [] => []
  | x :: l' => x :: match l' with
                    | [] => []
                    | _ :: l'' => evens l''
                    end
  end.

Fixpoint odds (l : list ref) : list ref :=
  match l with
  | [] => []
  | _ :: l' => match l' with
               | [] => []
               | y :: l'' => y :: odds l''
               end
  end.

(** * Properties *)

(** ** [list.remove] *)

Section ListRemove.

Implicit Types (x y : nat) (l r : list nat).

Lemma list_remove_absent x l : ~ In x l -> list_remove x l = None.
Proof.
  induction l as [|y l IH]; simpl; intros Hx; [reflexivity|].
  destruct (decide (y = x)) as [->|Hne]; [tauto|].
  rewrite IH; [reflexivity|tauto].
Qed.

Lemma list_remove_present x l : In x l -> is_Some (list_remove x l).
Proof.
  induction l as [|y l IH]; simpl; intros Hx; [tauto|].
  destruct (decide (y = x)) as [->|Hne]; [eauto|].
  destruct IH as [r Hr]; [tauto|]. rewrite Hr. eauto.
Qed.

(** A successful removal takes out the first occurrence and nothing
    else. *)
Lemma list_remove_first x l r :
  list_remove x l = Some r ->
  exists pre post, l = pre ++ x :: post /\ ~ In x pre /\ r = pre ++ post.
Proof.
  revert r. induction l as [|y l IH]; simpl; intros r Hr; [discriminate|].
  destruct (decide (y = x)) as [->|Hne].
  - injection Hr as <-. exists [], l. simpl. tauto.
  - destruct (list_remove x l) as [r'|] eqn:Hl; [|discriminate].
    injection Hr as <-.
    destruct (IH r' eq_refl) as (pre & post & -> & Hpre & ->).
    exists (y :: pre), post. simpl. intuition congruence.
Qed.

Lemma list_remove_at_first x pre post :
  ~ In x pre -> list_remove x (pre ++ x :: post) = Some (pre ++ post).
Proof.
  induction pre as [|y pre IH]; simpl; intros Hx.
  - destruct (decide (x = x)); [reflexivity|congruence].
  - destruct (decide (y = x)) as [->|Hne]; [tauto|].
    rewrite IH; [reflexivity|tauto].
Qed.

Lemma list_remove_length x l r :
  list_remove x l = Some r -> length l = S (length r).
Proof.
  intros (pre & post & -> & _ & ->)%list_remove_first.
  rewrite !length_app. simpl. lia.
Qed.

Lemma list_remove_Permutation x l r :
  list_remove x l = Some r -> Permutation l (x :: r).
Proof.
  intros (pre & post & -> & _ & ->)%list_remove_first.
  symmetry. apply Permutation_middle.
Qed.

Lemma list_remove_count x l r :
  list_remove x l = Some r ->
  count_occ Nat.eq_dec l x = S (count_occ Nat.eq_dec r x).
Proof.
  intros (pre & post & -> & _ & ->)%list_remove_first.
  rewrite !count_occ_app. simpl.
  destruct (Nat.eq_dec x x); [lia|congruence].
Qed.

(** Removing an element right after appending it. *)
Lemma list_remove_appended x l : is_Some (list_remove x (l ++ [x])).
Proof. apply list_remove_present, in_or_app. simpl. tauto. Qed.

Lemma list_remove_appended_fresh x l :
  ~ In x l -> list_remove x (l ++ [x]) = Some l.
Proof.
  intros Hx. rewrite (list_remove_at_first x l [] Hx).
  by rewrite app_nil_r.
Qed.

End ListRemove.

(** ** The methods of [ConcreteSubject], as store transformers *)

Lemma bind_run {A B : Type} (m : M A) (f : A -> M B) (w w1 : World) (a : A) :
  m w = Some (Ok a, w1) -> (m ≫= f) w = f a w1.
Proof. intros H. unfold mbind, M_bind. by rewrite H. Qed.

Lemma bind_raise {A B : Type} (m : M A) (f : A -> M B) (w w1 : World) (e : exn) :
  m w = Some (Raise e, w1) -> (m ≫= f) w = Some (Raise e, w1).
Proof. intros H. unfold mbind, M_bind. by rewrite H. Qed.

Lemma bind_inv {A B : Type} (m : M A) (f : A -> M B) (w w' : World) (r : Result B) :
  (m ≫= f) w = Some (r, w') ->
  (exists a w1, m w = Some (Ok a, w1) /\ f a w1 = Some (r, w')) \/
  (exists e, m w = Some (Raise e, w') /\ r = Raise e).
Proof.
  unfold mbind, M_bind.
  destruct (m w) as [[[a|e] w1]|]; intros H; [left; eauto| |discriminate].
  injection H as <- <-. right; eauto.
Qed.

Lemma attach_run (self observer : nat) (w : World) :
  attach self observer w =
  Some (Ok tt, {| class_observers := class_observers w ++ [observer];
                  instance_state := instance_state w;
                  stdout := stdout w ++ [msg_attach];
                  calls := calls w |}).
Proof. reflexivity. Qed.

Lemma detach_present (self observer : nat) (w : World) (l' : list nat) :
  list_remove observer (class_observers w) = Some l' ->
  detach self observer w =
  Some (Ok tt, {| class_observers := l';
                  instance_state := instance_state w;
                  stdout := stdout w ++ [msg_detach];
                  calls := calls w |}).
Proof.
  intros H. unfold detach, mbind, M_bind, print, getattr_observers, observers_of.
  simpl. by rewrite H.
Qed.

Lemma detach_absent (self observer : nat) (w : World) :
  list_remove observer (class_observers w) = None ->
  detach self observer w =
  Some (Raise ValueError,
        {| class_observers := class_observers w;
           instance_state := instance_state w;
           stdout := stdout w ++ [msg_detach];
           calls := calls w |}).
Proof.
  intros H. unfold detach, mbind, M_bind, print, getattr_observers, observers_of.
  simpl. by rewrite H.
Qed.

(** ** Subscription management *)

(** C3: detaching an observer that is not in the list raises the error of
    [list.remove] (the "not registered" error), which reaches the caller as
    it is, and the list of observers is left exactly as it was; so are the
    states, and nothing but the line printed on entry is added. *)
Theorem detach_unregistered_fails (self observer : nat) (w : World) :
  ~ In observer (observers_of w self) ->
  exists w',
    detach self observer w = Some (Raise ValueError, w') /\
    observers_of w' self = observers_of w self /\
    instance_state w' = instance_state w /\
    calls w' = calls w /\
    stdout w' = stdout w ++ [msg_detach].
Proof.
  intros Hx. eexists. split.
  - apply detach_absent, list_remove_absent, Hx.
  - by simpl.
Qed.

Lemma detach_unregistered_fails_witness :
  exists w',
    detach sbj observerB
      {| class_observers := [observerA]; instance_state := ∅;
         stdout := []; calls := [] |} = Some (Raise ValueError, w') /\
    class_observers w' = [observerA].
Proof.
  destruct (detach_unregistered_fails sbj observerB
    {| class_observers := [observerA]; instance_state := ∅;
       stdout := []; calls := [] |}) as (w' & Hrun & Hl & _).
  - vm_compute. intros [H|[]]. discriminate H.
  - exists w'. split; [exact Hrun|exact Hl].
Defined.

(** C6 as stated fails: [attach] appends at the end and [detach] removes
    the first occurrence, so when the observer is already in the list, in
    front of another one, the list that comes back is in another order. *)
Lemma attach_detach_not_identity :
  ~ (forall (w : World) (self observer : nat) (w' : World),
       (attach self observer;; detach self observer) w = Some (Ok tt, w') ->
       observers_of w' self = observers_of w self).
Proof.
  intros H.
  specialize (H {| class_observers := [observerA; observerB];
                   instance_state := ∅; stdout := []; calls := [] |}
                sbj observerA _ eq_refl).
  vm_compute in H. discriminate H.
Qed.

(** C6, amended: [attach] followed by one [detach] of the same observer
    completes and gives back a list with the same members, each as many
    times as before: the first occurrence of the observer in the extended
    list has gone.  It is the list [L] itself when the observer was not in
    [L]. *)
Theorem attach_detach_round_trip (self observer : nat) (w : World) :
  exists w',
    (attach self observer;; detach self observer) w = Some (Ok tt, w') /\
    Permutation (observers_of w' self) (observers_of w self) /\
    (exists pre post,
        observers_of w self ++ [observer] = pre ++ observer :: post /\
        ~ In observer pre /\
        observers_of w' self = pre ++ post) /\
    (~ In observer (observers_of w self) ->
     observers_of w' self = observers_of w self).
Proof.
  destruct (list_remove_appended observer (class_observers w)) as [l' Hl'].
  eexists. split.
  - rewrite (bind_run _ _ _ _ _ (attach_run self observer w)).
    apply detach_present. simpl. exact Hl'.
  - unfold observers_of. simpl. split; [|split].
    + apply Permutation_cons_inv with (a := observer).
      rewrite <- (list_remove_Permutation _ _ _ Hl').
      symmetry. apply Permutation_cons_append.
    + by apply list_remove_first.
    + intros Hx. rewrite (list_remove_appended_fresh _ _ Hx) in Hl'.
      by injection Hl' as <-.
Qed.

Lemma attach_detach_round_trip_witness :
  exists w',
    (attach sbj observerB;; detach sbj observerB)
      {| class_observers := [observerA]; instance_state := ∅;
         stdout := []; calls := [] |} = Some (Ok tt, w') /\
    class_observers w' = [observerA].
Proof.
  destruct (attach_detach_round_trip sbj observerB
    {| class_observers := [observerA]; instance_state := ∅;
       stdout := []; calls := [] |}) as (w' & Hrun & _ & _ & Hsame).
  exists w'. split; [exact Hrun|].
  apply Hsame. vm_compute. intros [H|[]]. discriminate H.
Defined.

(** [attach] adds one entry; [detach] takes one out when it completes and
    none when it raises. *)
Lemma attach_length (self observer : nat) (w : World) :
  exists w', attach self observer w = Some (Ok tt, w') /\
    length (observers_of w' self) = S (length (observers_of w self)).
Proof.
  eexists. split; [apply attach_run|].
  unfold observers_of. simpl. rewrite length_app. simpl. lia.
Qed.

Lemma detach_length (self observer : nat) (w : World) :
  exists r w', detach self observer w = Some (r, w') /\
    (length (observers_of w' self) + (if is_ok r then 1 else 0))%nat
    = length (observers_of w self).
Proof.
  destruct (list_remove observer (class_observers w)) as [l'|] eqn:Hl.
  - eexists _, _. split; [by apply detach_present|].
    unfold observers_of. simpl. apply list_remove_length in Hl. lia.
  - eexists _, _. split; [by apply detach_absent|].
    unfold observers_of. simpl. lia.
Qed.

Lemma replay_count (self : nat) (cs : list subscription_call) (w : World) :
  exists rs w',
    replay self cs w = Some (rs, w') /\
    length rs = length cs /\
    (length (observers_of w' self) + successful_detaches cs rs
     = length (observers_of w self) + attach_calls cs)%nat.
Proof.
  revert w. induction cs as [|c cs IH]; intros w.
  - exists [], w. simpl. split; [done|]. lia.
  - destruct c as [o|o]; cbn [replay run_subscription].
    + destruct (attach_length self o w) as (w1 & -> & Hlen).
      destruct (IH w1) as (rs & w' & -> & Hrs & Hcount).
      exists (Ok tt :: rs), w'. split; [done|].
      cbn [successful_detaches attach_calls length]. split; lia.
    + destruct (detach_length self o w) as (r & w1 & -> & Hlen).
      destruct (IH w1) as (rs & w' & -> & Hrs & Hcount).
      exists (r :: rs), w'. split; [done|].
      cbn [successful_detaches attach_calls length]. split; lia.
Qed.

(** C5: after any sequence of [attach] and [detach] calls on a subject, the
    list of observers has grown by the number of [attach] calls minus the
    number of [detach] calls that completed; starting from the empty list of
    a freshly loaded module, its length is that difference. *)
Theorem subscription_count (self : nat) (cs : list subscription_call) :
  (forall w, exists rs w',
     replay self cs w = Some (rs, w') /\
     Z.of_nat (length (observers_of w' self)) =
       Z.of_nat (length (observers_of w self))
       + Z.of_nat (attach_calls cs)
       - Z.of_nat (successful_detaches cs rs)) /\
  (exists rs w',
     replay self cs module_loaded = Some (rs, w') /\
     Z.of_nat (length (observers_of w' self)) =
       Z.of_nat (attach_calls cs) - Z.of_nat (successful_detaches cs rs)).
Proof.
  split.
  - intros w. destruct (replay_count self cs w) as (rs & w' & H & _ & Hc).
    exists rs, w'. split; [exact H|lia].
  - destruct (replay_count self cs module_loaded) as (rs & w' & H & _ & Hc).
    exists rs, w'. split; [exact H|].
    unfold observers_of in Hc at 2. simpl in Hc. lia.
Qed.

(** ** Notification *)

Lemma notify_run (update : nat -> nat -> M unit) (fuel self : nat) (w : World) :
  notify update fuel self w = notify_loop update fuel self 0 (announced w).
Proof. reflexivity. Qed.

Lemma notify_loop_end (update : nat -> nat -> M unit) (fuel self i : nat) (w : World) :
  class_observers w !! i = None ->
  notify_loop update (S fuel) self i w = Some (Ok tt, w).
Proof.
  intros H. cbn [notify_loop].
  unfold mbind, M_bind, getattr_observers, observers_of. by rewrite H.
Qed.

Lemma notify_loop_next (update : nat -> nat -> M unit) (fuel self i o : nat) (w : World) :
  class_observers w !! i = Some o ->
  notify_loop update (S fuel) self i w =
  (log_call o self;; update o self;; notify_loop update fuel self (S i)) w.
Proof.
  intros H. cbn [notify_loop].
  unfold mbind at 1. unfold M_bind at 1.
  unfold getattr_observers, observers_of. by rewrite H.
Qed.

(** C9: with no observer in the list, [notify] calls no [update] and
    completes; all it does is print its line. *)
Theorem notify_no_observers (update : nat -> nat -> M unit) (fuel self : nat) (w : World) :
  observers_of w self = [] ->
  exists w',
    notify update (S fuel) self w = Some (Ok tt, w') /\
    calls w' = calls w /\
    observers_of w' self = [] /\
    instance_state w' = instance_state w /\
    stdout w' = stdout w ++ [msg_notifying].
Proof.
  unfold observers_of. intros Hl. exists (announced w). split.
  - rewrite notify_run. apply notify_loop_end. simpl. by rewrite Hl.
  - by simpl.
Qed.

Lemma notify_no_observers_witness :
  exists w',
    notify (update_of main_class_of) 1 sbj module_loaded = Some (Ok tt, w') /\
    calls w' = [].
Proof.
  destruct (notify_no_observers (update_of main_class_of) 0 sbj module_loaded)
    as (w' & Hrun & Hcalls & _); [reflexivity|].
  exists w'. split; [exact Hrun|exact Hcalls].
Defined.

(** When no [update] touches the list of subscribers, the loop over the
    live list is the loop over the list as it was on entry. *)
Lemma notify_loop_snapshot (update : nat -> nat -> M unit) (self : nat) :
  update_frame update ->
  forall (fuel i : nat) (w : World),
    (length (class_observers w) - i < fuel)%nat ->
    notify_loop update fuel self i w =
    update_each update self (drop i (class_observers w)) w.
Proof.
  intros Hframe. induction fuel as [|fuel IH]; intros i w Hfuel; [lia|].
  destruct (class_observers w !! i) as [o|] eqn:Hi.
  - rewrite (notify_loop_next _ _ _ _ _ _ Hi).
    rewrite (drop_S _ _ _ Hi). cbn [update_each].
    apply lookup_lt_Some in Hi.
    unfold mbind, M_bind, log_call. simpl.
    match goal with |- context [update o self ?w1] =>
      destruct (update o self w1) as [[[[]|e] w2]|] eqn:Hu end; try reflexivity.
    destruct (Hframe _ _ _ _ _ Hu) as [Hl _]. simpl in Hl.
    rewrite <- Hl. apply IH. rewrite Hl. lia.
  - rewrite (notify_loop_end _ _ _ _ _ Hi).
    apply lookup_ge_None in Hi. by rewrite drop_ge.
Qed.

(** The invocations logged by [update_each]: one per observer reached, in
    the order of the list. *)
Lemma update_each_calls (update : nat -> nat -> M unit) (self : nat) :
  update_frame update ->
  forall (l : list nat) (w w' : World) (r : Result unit),
    update_each update self l w = Some (r, w') ->
    class_observers w' = class_observers w /\
    exists cs, calls w' = calls w ++ cs /\
      (if is_ok r then map callee cs = l
       else exists pre o post, l = pre ++ o :: post /\ map callee cs = pre ++ [o]).
Proof.
  intros Hframe. induction l as [|o l IH]; intros w w' r Hrun.
  - injection Hrun as <- <-. split; [done|]. exists []. by rewrite app_nil_r.
  - cbn [update_each] in Hrun. unfold mbind, M_bind, log_call in Hrun.
    simpl in Hrun.
    match type of Hrun with context [update o self ?w1] =>
      destruct (update o self w1) as [[[[]|e] w2]|] eqn:Hu end;
      [| |discriminate].
    + destruct (Hframe _ _ _ _ _ Hu) as [Hl Hc]. simpl in Hl, Hc.
      destruct (IH _ _ _ Hrun) as (Hl' & cs & Hcs & Hr).
      split; [congruence|].
      exists (Call o self (state_of w self) :: cs). split.
      * rewrite Hcs, Hc. by rewrite <- app_assoc.
      * destruct r; simpl in *.
        -- by rewrite Hr.
        -- destruct Hr as (pre & o' & post & -> & Hm).
           exists (o :: pre), o', post. simpl. by rewrite Hm.
    + injection Hrun as <- <-.
      destruct (Hframe _ _ _ _ _ Hu) as [Hl Hc]. simpl in Hl, Hc.
      split; [done|].
      exists [Call o self (state_of w self)]. split; [by rewrite Hc|].
      simpl. by exists [], o, l.
Qed.

Lemma notify_loop_raise (update : nat -> nat -> M unit) (self o : nat)
    (post : list nat) (e : exn) (w2 : World) :
  update_frame update ->
  forall (pre : list nat) (fuel i : nat) (w w1 : World),
    drop i (class_observers w) = pre ++ o :: post ->
    (length pre < fuel)%nat ->
    update_each update self pre w = Some (Ok tt, w1) ->
    (log_call o self;; update o self) w1 = Some (Raise e, w2) ->
    notify_loop update fuel self i w = Some (Raise e, w2).
Proof.
  intros Hframe.
  induction pre as [|p pre IH]; intros fuel i w w1 Hdrop Hfuel Hpre Ho;
    (destruct fuel as [|fuel]; [simpl in Hfuel; lia|]);
    pose proof (lookup_drop (class_observers w) i 0) as Hi;
    rewrite Hdrop, Nat.add_0_r in Hi; simpl in Hi; symmetry in Hi;
    rewrite (notify_loop_next _ _ _ _ _ _ Hi).
  - injection Hpre as <-.
    revert Ho. unfold mbind, M_bind, log_call. simpl.
    match goal with |- context [update o self ?w0] =>
      destruct (update o self w0) as [[[[]|e'] w']|] end; congruence.
  - revert Hpre. cbn [update_each]. unfold mbind, M_bind, log_call. simpl.
    match goal with |- context [update p self ?w0] =>
      destruct (update p self w0) as [[[[]|e'] w']|] eqn:Hu end;
      [|discriminate..].
    intros Hpre. destruct (Hframe _ _ _ _ _ Hu) as [Hl _]. simpl in Hl.
    apply (IH fuel (S i) w' w1); [|simpl in Hfuel; lia|done|done].
    rewrite Hl. rewrite (drop_S _ _ _ Hi) in Hdrop. by injection Hdrop.
Qed.

(** C8: when the [update] of an observer raises during [notify], the loop
    ends there: [notify] raises that very exception, the store is the one
    the failing [update] left, and the observers called are those before
    the failing one and the failing one, none after it. *)
Theorem notify_stops_at_first_error (update : nat -> nat -> M unit)
    (fuel self : nat) (w w1 w2 : World) (pre post : list nat) (o : nat) (e : exn) :
  update_frame update ->
  observers_of w self = pre ++ o :: post ->
  (length pre < fuel)%nat ->
  update_each update self pre (announced w) = Some (Ok tt, w1) ->
  (log_call o self;; update o self) w1 = Some (Raise e, w2) ->
  notify update fuel self w = Some (Raise e, w2) /\
  map callee (calls_since w w2) = pre ++ [o].
Proof.
  intros Hframe Hl Hfuel Hpre Ho. split.
  - rewrite notify_run.
    by apply (notify_loop_raise update self o post e w2 Hframe pre fuel 0
                (announced w) w1).
  - destruct (update_each_calls update self Hframe _ _ _ _ Hpre)
      as (_ & cs & Hcs & Hm). simpl in Hcs, Hm.
    revert Ho. unfold mbind, M_bind, log_call. simpl.
    match goal with |- context [update o self ?w0] =>
      destruct (update o self w0) as [[[[]|e'] w']|] eqn:Hu end;
      [discriminate| |discriminate].
    intros [= <- <-]. destruct (Hframe _ _ _ _ _ Hu) as [_ Hc]. simpl in Hc.
    unfold calls_since. rewrite Hc, Hcs, <- app_assoc, drop_app_length.
    by rewrite map_app, Hm.
Qed.

(** ** The two concrete observers *)

Lemma printed_nil (w : World) : printed [] w = w.
Proof. destruct w. unfold printed. simpl. by rewrite app_nil_r. Qed.

Lemma ConcreteObserverA_update_run (subject : nat) (w : World) :
  ConcreteObserverA_update subject w =
  match state_of w subject with
  | VNone => Some (Raise TypeError, w)
  | VInt n => Some (Ok tt, printed (reaction ConcreteObserverA n) w)
  end.
Proof.
  unfold ConcreteObserverA_update, mbind, M_bind, getattr_state, lift_result.
  destruct (state_of w subject) as [|n]; simpl; [done|].
  destruct (n <? 8)%Z; [done|]. by rewrite printed_nil.
Qed.

Lemma ConcreteObserverB_update_run (subject : nat) (w : World) :
  ConcreteObserverB_update subject w =
  match state_of w subject with
  | VNone => Some (Raise TypeError, w)
  | VInt n => Some (Ok tt, printed (reaction ConcreteObserverB n) w)
  end.
Proof.
  unfold ConcreteObserverB_update, mbind, M_bind, getattr_state, lift_result.
  destruct (state_of w subject) as [|n]; simpl; [done|].
  destruct (n >? 4)%Z; [done|]. by rewrite printed_nil.
Qed.

Lemma update_of_run (class_of : nat -> ObserverClass) (o subject : nat) (w : World) :
  update_of class_of o subject w =
  match state_of w subject with
  | VNone => Some (Raise TypeError, w)
  | VInt n => Some (Ok tt, printed (reaction (class_of o) n) w)
  end.
Proof.
  unfold update_of. destruct (class_of o);
    [apply ConcreteObserverA_update_run|apply ConcreteObserverB_update_run].
Qed.

Lemma update_of_frame (class_of : nat -> ObserverClass) :
  update_frame (update_of class_of).
Proof.
  intros o s w r w'. rewrite update_of_run.
  destruct (state_of w s); intros [= <- <-]; by simpl.
Qed.

Lemma update_of_instance_state (class_of : nat -> ObserverClass)
    (o s : nat) (w w' : World) (r : Result unit) :
  update_of class_of o s w = Some (r, w') ->
  instance_state w' = instance_state w.
Proof.
  rewrite update_of_run. destruct (state_of w s); intros [= <- <-]; by simpl.
Qed.

Lemma print_changes (line : string) (w : World) :
  print line w <> Some (Ok tt, w).
Proof.
  intros [= H]. apply (f_equal (fun x => length (stdout x))) in H.
  simpl in H. rewrite length_app in H. simpl in H. lia.
Qed.

Lemma ConcreteObserverA_update_int (subject : nat) (w : World) (s : Z) :
  state_of w subject = VInt s ->
  ConcreteObserverA_update subject w =
  if (s <? 8)%Z then print msg_react_A w else Some (Ok tt, w).
Proof.
  intros Hs. rewrite ConcreteObserverA_update_run, Hs. simpl.
  destruct (s <? 8)%Z; [done|]. by rewrite printed_nil.
Qed.

Lemma ConcreteObserverB_update_int (subject : nat) (w : World) (s : Z) :
  state_of w subject = VInt s ->
  ConcreteObserverB_update subject w =
  if (s >? 4)%Z then print msg_react_B w else Some (Ok tt, w).
Proof.
  intros Hs. rewrite ConcreteObserverB_update_run, Hs. simpl.
  destruct (s >? 4)%Z; [done|]. by rewrite printed_nil.
Qed.

(** C2: for a subject whose state is the integer [s],
    [ConcreteObserverA.update] prints its line exactly when [s < 8] and
    does nothing otherwise, and [ConcreteObserverB.update] prints its line
    exactly when [s > 4] and does nothing otherwise; so at 3 only A reacts
    and at 9 only B does. *)
Theorem observers_react_on_thresholds (subject : nat) (w : World) (s : Z) :
  state_of w subject = VInt s ->
  (ConcreteObserverA_update subject w = print msg_react_A w <-> s < 8) /\
  (ConcreteObserverA_update subject w = Some (Ok tt, w) <-> ~ s < 8) /\
  (ConcreteObserverB_update subject w = print msg_react_B w <-> s > 4) /\
  (ConcreteObserverB_update subject w = Some (Ok tt, w) <-> ~ s > 4) /\
  (s = 3 ->
   ConcreteObserverA_update subject w = print msg_react_A w /\
   ConcreteObserverB_update subject w = Some (Ok tt, w)) /\
  (s = 9 ->
   ConcreteObserverA_update subject w = Some (Ok tt, w) /\
   ConcreteObserverB_update subject w = print msg_react_B w).
Proof.
  intros Hs.
  rewrite (ConcreteObserverA_update_int _ _ _ Hs),
          (ConcreteObserverB_update_int _ _ _ Hs), Z.gtb_ltb.
  pose proof (print_changes msg_react_A w) as HA.
  pose proof (print_changes msg_react_B w) as HB.
  destruct (Z.ltb_spec s 8), (Z.ltb_spec 4 s);
    repeat split; intros; subst; try lia; try done.
Qed.

Lemma observers_react_on_thresholds_witness :
  ConcreteObserverA_update sbj
    {| class_observers := [observerA; observerB];
       instance_state := {[ sbj := VInt 3 ]}; stdout := []; calls := [] |}
  = print msg_react_A
    {| class_observers := [observerA; observerB];
       instance_state := {[ sbj := VInt 3 ]}; stdout := []; calls := [] |}.
Proof.
  destruct (observers_react_on_thresholds sbj
    {| class_observers := [observerA; observerB];
       instance_state := {[ sbj := VInt 3 ]}; stdout := []; calls := [] |}
    3) as (_ & _ & _ & _ & H3 & _); [by vm_compute|].
  exact (proj1 (H3 eq_refl)).
Defined.

(** The run of the [__main__] block when the three draws are 3, 9 and 9:
    at 3 only A prints, at 9 only B prints, and once B is detached only A is
    called, and prints nothing. *)
Example main_scenario :
  exists w,
    main 3 3 9 9 module_loaded = Some (Ok tt, w) /\
    observers_of w sbj = [observerA] /\
    calls w = [Call observerA sbj (VInt 3); Call observerB sbj (VInt 3);
               Call observerA sbj (VInt 9); Call observerB sbj (VInt 9);
               Call observerA sbj (VInt 9)] /\
    stdout w = [msg_attach; msg_attach;
                msg_important; msg_changed "3"; msg_notifying; msg_react_A;
                msg_important; msg_changed "9"; msg_notifying; msg_react_B;
                msg_detach;
                msg_important; msg_changed "9"; msg_notifying].
Proof. eexists. split; [by vm_compute|]. by vm_compute. Qed.

Lemma notify_stops_at_first_error_witness :
  exists w',
    notify (update_of main_class_of) 1 sbj
      {| class_observers := [observerA; observerB]; instance_state := ∅;
         stdout := []; calls := [] |} = Some (Raise TypeError, w') /\
    map callee (calls w') = [observerA].
Proof.
  eexists.
  refine (notify_stops_at_first_error (update_of main_class_of) 1 sbj
    {| class_observers := [observerA; observerB]; instance_state := ∅;
       stdout := []; calls := [] |} _ _ [] [observerB] observerA TypeError
    (update_of_frame main_class_of) eq_refl _ eq_refl eq_refl).
  simpl. lia.
Defined.

(** With an integer state no [update] raises: every observer of the list
    is called, in order, and sees that state. *)
Lemma update_each_int (class_of : nat -> ObserverClass) (self : nat) (n : Z) :
  forall (l : list nat) (w : World),
    state_of w self = VInt n ->
    update_each (update_of class_of) self l w =
    Some (Ok tt,
          {| class_observers := class_observers w;
             instance_state := instance_state w;
             stdout := stdout w ++ flat_map (fun o => reaction (class_of o) n) l;
             calls := calls w ++ map (fun o => Call o self (VInt n)) l |}).
Proof.
  induction l as [|o l IH]; intros w Hs.
  - destruct w. simpl. by rewrite !app_nil_r.
  - cbn [update_each]. unfold mbind at 1. unfold M_bind at 1.
    cbn [log_call]. unfold mbind at 1. unfold M_bind at 1.
    rewrite update_of_run.
    unfold state_of in *. cbn [instance_state]. rewrite Hs.
    rewrite IH by exact Hs. simpl.
    by rewrite <- !app_assoc.
Qed.

Lemma notify_int (class_of : nat -> ObserverClass) (fuel self : nat) (n : Z) (w : World) :
  state_of w self = VInt n ->
  (length (observers_of w self) < fuel)%nat ->
  notify (update_of class_of) fuel self w =
  Some (Ok tt,
        {| class_observers := class_observers w;
           instance_state := instance_state w;
           stdout := stdout w ++ msg_notifying ::
                     flat_map (fun o => reaction (class_of o) n) (class_observers w);
           calls := calls w ++ map (fun o => Call o self (VInt n)) (class_observers w) |}).
Proof.
  intros Hs Hfuel. rewrite notify_run.
  rewrite (notify_loop_snapshot _ self (update_of_frame class_of))
    by (unfold observers_of in Hfuel; simpl; lia).
  rewrite (update_each_int class_of self n) by exact Hs.
  simpl. by rewrite <- app_assoc.
Qed.

(** With the state unset, the first [update] raises. *)
Lemma notify_unset (class_of : nat -> ObserverClass) (fuel self o : nat)
    (l : list nat) (w : World) :
  state_of w self = VNone ->
  observers_of w self = o :: l ->
  notify (update_of class_of) (S fuel) self w =
  Some (Raise TypeError,
        {| class_observers := class_observers w;
           instance_state := instance_state w;
           stdout := stdout w ++ [msg_notifying];
           calls := calls w ++ [Call o self VNone] |}).
Proof.
  unfold observers_of. intros Hs Hl. rewrite notify_run.
  rewrite (notify_loop_next _ _ _ _ o) by (simpl; by rewrite Hl).
  unfold mbind at 1. unfold M_bind at 1. cbn [log_call].
  unfold mbind at 1. unfold M_bind at 1. rewrite update_of_run.
  unfold state_of in *. cbn [instance_state announced printed]. by rewrite Hs.
Qed.

(** ** The business operation *)

Lemma randrange_0_10 : randrange 0 10 = [0; 1; 2; 3; 4; 5; 6; 7; 8; 9].
Proof. reflexivity. Qed.

Lemma randrange_spec (start stop n : Z) :
  In n (randrange start stop) <-> start <= n < stop.
Proof.
  unfold randrange. rewrite in_map_iff. split.
  - intros (k & <- & Hk%in_seq). lia.
  - intros Hn. exists (Z.to_nat (n - start)). rewrite in_seq. lia.
Qed.

Lemma randrange_NoDup (start stop : Z) : List.NoDup (randrange start stop).
Proof.
  unfold randrange. apply Finite.Injective_map_NoDup; [|apply seq_NoDup].
  intros a b. lia.
Qed.

Lemma do_some_business_logic_run (class_of : nat -> ObserverClass)
    (fuel : nat) (draw : Z) (self : nat) (w : World) :
  (length (observers_of w self) < fuel)%nat ->
  do_some_business_logic (update_of class_of) fuel draw self w =
  Some (Ok tt,
        {| class_observers := class_observers w;
           instance_state := <[self := VInt draw]> (instance_state w);
           stdout := stdout w ++
                     [msg_important; msg_changed (str (VInt draw)); msg_notifying] ++
                     flat_map (fun o => reaction (class_of o) draw) (class_observers w);
           calls := calls w ++
                    map (fun o => Call o self (VInt draw)) (class_observers w) |}).
Proof.
  intros Hfuel.
  unfold do_some_business_logic, mbind, M_bind, print, setattr_state,
    getattr_state.
  cbv beta iota. unfold state_of. cbn [instance_state].
  rewrite lookup_insert_eq. cbn [default].
  rewrite (notify_int class_of fuel self draw).
  - cbn [class_observers instance_state stdout calls].
    by rewrite <- !app_assoc.
  - unfold state_of. cbn [instance_state]. by rewrite lookup_insert_eq.
  - exact Hfuel.
Qed.

Lemma do_some_business_logic_outcomes_run (class_of : nat -> ObserverClass)
    (fuel self : nat) (w : World) :
  (length (observers_of w self) < fuel)%nat ->
  do_some_business_logic_outcomes (update_of class_of) fuel self w =
  map (fun draw =>
         Some (Ok tt,
               {| class_observers := class_observers w;
                  instance_state := <[self := VInt draw]> (instance_state w);
                  stdout := stdout w ++
                            [msg_important; msg_changed (str (VInt draw));
                             msg_notifying] ++
                            flat_map (fun o => reaction (class_of o) draw)
                                     (class_observers w);
                  calls := calls w ++
                           map (fun o => Call o self (VInt draw))
                               (class_observers w) |}))
      (randrange 0 10).
Proof.
  intros Hfuel. unfold do_some_business_logic_outcomes.
  apply map_ext. intros draw. by apply do_some_business_logic_run.
Qed.



(** ** Duplicates and sharing *)

Lemma times_called_map (self o : nat) (v : value) (l : list nat) :
  times_called o (map (fun x => Call x self v) l) = count_occ Nat.eq_dec l o.
Proof.
  unfold times_called. rewrite map_map. simpl. by rewrite map_id.
Qed.



(** C4 does not hold of the module: [_observers] is a class attribute and
    [attach] mutates the list it is bound to, so an observer attached
    through one instance is in the list of every other instance and is
    called when another instance notifies. *)
Theorem observers_shared_between_instances (class_of : nat -> ObserverClass)
    (fuel s1 s2 o : nat) (draw : Z) (w : World) :
  s1 <> s2 ->
  (length (observers_of w s2) + 1 < fuel)%nat ->
  exists w1 w2,
    attach s1 o w = Some (Ok tt, w1) /\
    observers_of w1 s2 = observers_of w s2 ++ [o] /\
    do_some_business_logic (update_of class_of) fuel draw s2 w1 = Some (Ok tt, w2) /\
    calls_since w1 w2 =
      map (fun x => Call x s2 (VInt draw)) (observers_of w s2 ++ [o]).
Proof.
  intros _ Hfuel. eexists _, _. split; [apply attach_run|].
  split; [done|]. split.
  - apply do_some_business_logic_run. unfold observers_of in *.
    cbn [class_observers]. rewrite length_app. simpl. lia.
  - unfold calls_since, observers_of. cbn [calls class_observers].
    by rewrite drop_app_length.
Qed.

Lemma observers_shared_between_instances_witness :
  exists w1 w2,
    attach 5 observerA module_loaded = Some (Ok tt, w1) /\
    do_some_business_logic (update_of main_class_of) 2 3 6 w1 = Some (Ok tt, w2) /\
    calls w2 = [Call observerA 6 (VInt 3)].
Proof.
  destruct (observers_shared_between_instances main_class_of 2 5 6 observerA 3
    module_loaded) as (w1 & w2 & H1 & H2 & H3 & H4).
  - lia.
  - vm_compute. lia.
  - exists w1, w2. split; [exact H1|]. split; [exact H3|].
    rewrite attach_run in H1. injection H1 as <-. exact H4.
Defined.

(** ** The unset state *)

Lemma notify_loop_instance_state (class_of : nat -> ObserverClass) (self : nat) :
  forall (fuel i : nat) (w w' : World) (r : Result unit),
    notify_loop (update_of class_of) fuel self i w = Some (r, w') ->
    instance_state w' = instance_state w.
Proof.
  induction fuel as [|fuel IH]; intros i w w' r Hrun; [discriminate|].
  destruct (class_observers w !! i) as [o|] eqn:Hi.
  - rewrite (notify_loop_next _ _ _ _ _ _ Hi) in Hrun.
    apply bind_inv in Hrun as [([] & w1 & [= <-] & Hrun)|(e & [=] & _)].
    apply bind_inv in Hrun as [([] & w2 & Hu & Hrun)|(e & Hu & _)].
    + apply IH in Hrun. apply update_of_instance_state in Hu.
      simpl in Hu. congruence.
    + apply update_of_instance_state in Hu. by simpl in Hu.
  - rewrite (notify_loop_end _ _ _ _ _ Hi) in Hrun. by injection Hrun as _ <-.
Qed.

Lemma notify_instance_state (class_of : nat -> ObserverClass)
    (fuel self : nat) (w w' : World) (r : Result unit) :
  notify (update_of class_of) fuel self w = Some (r, w') ->
  instance_state w' = instance_state w.
Proof.
  rewrite notify_run. intros H%notify_loop_instance_state. by simpl in H.
Qed.

(** Only [do_some_business_logic] on [s] writes the entry of [s]. *)
Lemma run_method_instance_state (class_of : nat -> ObserverClass)
    (s : nat) (c : method_call) (w w' : World) (r : Result unit) :
  is_business_logic_on s c = false ->
  run_method class_of c w = Some (r, w') ->
  instance_state w' !! s = instance_state w !! s.
Proof.
  destruct c as [self o|self o|fuel self|fuel draw self]; simpl; intros Hc.
  - rewrite attach_run. by intros [= _ <-].
  - destruct (list_remove o (class_observers w)) as [l'|] eqn:Hl.
    + rewrite (detach_present _ _ _ _ Hl). by intros [= _ <-].
    + rewrite (detach_absent _ _ _ Hl). by intros [= _ <-].
  - by intros ->%notify_instance_state.
  - apply bool_decide_eq_false in Hc.
    unfold do_some_business_logic, mbind, M_bind, print, setattr_state,
      getattr_state.
    cbv beta iota. intros ->%notify_instance_state.
    cbn [instance_state]. by rewrite lookup_insert_ne.
Qed.

Lemma reachable_unassigned (class_of : nat -> ObserverClass) (s : nat)
    (cs : list method_call) (w : World) :
  reachable class_of cs w ->
  Forall (fun c => is_business_logic_on s c = false) cs ->
  instance_state w !! s = None.
Proof.
  induction 1 as [|cs w c r w' Hreach IH Hrun]; intros Hcs; [done|].
  apply Forall_app in Hcs as [Hcs Hc]. apply Forall_inv in Hc.
  rewrite (run_method_instance_state _ _ _ _ _ _ Hc Hrun). by apply IH.
Qed.

(** C10: as long as [do_some_business_logic] has not been called on a
    subject, whatever else has been called, its [state] is [None]; a
    [notify] on it then raises [TypeError] in the [update] of the first
    observer of the list, whichever of the two classes it belongs to, and
    completes only when the list is empty. *)
Theorem unset_state_breaks_notify (class_of : nat -> ObserverClass)
    (cs : list method_call) (w : World) (s fuel : nat) :
  reachable class_of cs w ->
  Forall (fun c => is_business_logic_on s c = false) cs ->
  state_of w s = VNone /\
  match observers_of w s with
  | [] => notify (update_of class_of) (S fuel) s w = Some (Ok tt, announced w)
  | o :: _ =>
      notify (update_of class_of) (S fuel) s w =
      Some (Raise TypeError,
            {| class_observers := class_observers w;
               instance_state := instance_state w;
               stdout := stdout w ++ [msg_notifying];
               calls := calls w ++ [Call o s VNone] |})
  end.
Proof.
  intros Hreach Hcs.
  assert (Hs : state_of w s = VNone).
  { unfold state_of. by rewrite (reachable_unassigned _ _ _ _ Hreach Hcs). }
  split; [exact Hs|].
  destruct (observers_of w s) as [|o l] eqn:Hl.
  - rewrite notify_run. apply notify_loop_end.
    unfold observers_of in Hl. simpl. by rewrite Hl.
  - by apply (notify_unset class_of fuel s o l).
Qed.

Lemma unset_state_breaks_notify_witness :
  exists w w',
    attach sbj observerA module_loaded = Some (Ok tt, w) /\
    state_of w sbj = VNone /\
    notify (update_of main_class_of) 1 sbj w = Some (Raise TypeError, w') /\
    calls w' = [Call observerA sbj VNone].
Proof.
  eexists _, _. split; [apply attach_run|].
  destruct (unset_state_breaks_notify main_class_of [MAttach sbj observerA]
    {| class_observers := [observerA]; instance_state := ∅;
       stdout := [msg_attach]; calls := [] |} sbj 0) as [Hs Hn].
  - apply (reach_call main_class_of [] module_loaded (MAttach sbj observerA)
             (Ok tt) _ (reach_loaded main_class_of)).
    reflexivity.
  - repeat constructor.
  - split; [exact Hs|]. split; [exact Hn|reflexivity].
Defined.

(** * Further properties of the module *)

(** ** What each method does to the list and to the states *)

Lemma notify_loop_observers (update : nat -> nat -> M unit) (self : nat) :
  update_frame update ->
  forall (fuel i : nat) (w w' : World) (r : Result unit),
    notify_loop update fuel self i w = Some (r, w') ->
    class_observers w' = class_observers w.
Proof.
  intros Hframe.
  induction fuel as [|fuel IH]; intros i w w' r Hrun; [discriminate|].
  destruct (class_observers w !! i) as [o|] eqn:Hi.
  - rewrite (notify_loop_next _ _ _ _ _ _ Hi) in Hrun.
    apply bind_inv in Hrun as [([] & w1 & [= <-] & Hrun)|(e & [=] & _)].
    apply bind_inv in Hrun as [([] & w2 & Hu & Hrun)|(e & Hu & _)].
    + apply IH in Hrun. apply Hframe in Hu as [Hu _].
      simpl in Hu. congruence.
    + apply Hframe in Hu as [Hu _]. by simpl in Hu.
  - rewrite (notify_loop_end _ _ _ _ _ Hi) in Hrun. by injection Hrun as _ <-.
Qed.

Lemma notify_observers (class_of : nat -> ObserverClass)
    (fuel self : nat) (w w' : World) (r : Result unit) :
  notify (update_of class_of) fuel self w = Some (r, w') ->
  class_observers w' = class_observers w.
Proof.
  rewrite notify_run.
  intros H%(notify_loop_observers _ _ (update_of_frame class_of)).
  by simpl in H.
Qed.

(** The effect of one method call on the list of observers and on the
    instance dictionaries, whatever its outcome. *)
Lemma run_method_effect (class_of : nat -> ObserverClass)
    (c : method_call) (w w' : World) (r : Result unit) :
  run_method class_of c w = Some (r, w') ->
  class_observers w' =
    match c with
    | MAttach _ o => class_observers w ++ [o]
    | MDetach _ o => default (class_observers w) (list_remove o (class_observers w))
    | _ => class_observers w
    end /\
  instance_state w' =
    match c with
    | MBusinessLogic _ draw self => <[self := VInt draw]> (instance_state w)
    | _ => instance_state w
    end.
Proof.
  destruct c as [self o|self o|fuel self|fuel draw self]; cbn [run_method].
  - rewrite attach_run. by intros [= _ <-].
  - destruct (list_remove o (class_observers w)) as [l'|] eqn:Hl.
    + rewrite (detach_present _ _ _ _ Hl). by intros [= _ <-].
    + rewrite (detach_absent _ _ _ Hl). by intros [= _ <-].
  - intros H. split; [by apply notify_observers in H|
                      by apply notify_instance_state in H].
  - unfold do_some_business_logic, mbind, M_bind, print, setattr_state,
      getattr_state.
    cbv beta iota. intros H.
    split; [by apply notify_observers in H|by apply notify_instance_state in H].
Qed.

(** ** More on subscription *)

(** X1: [detach] always returns: either the observer was in the list, the
    call completes and the list has lost its first occurrence, the other
    entries keeping their order; or it was not, the call raises
    [ValueError] and the list is as before.  No other outcome exists. *)
Theorem detach_outcomes (self observer : nat) (w : World) :
  (exists w' pre post,
      detach self observer w = Some (Ok tt, w') /\
      observers_of w self = pre ++ observer :: post /\
      ~ In observer pre /\
      observers_of w' self = pre ++ post) \/
  (exists w',
      detach self observer w = Some (Raise ValueError, w') /\
      ~ In observer (observers_of w self) /\
      observers_of w' self = observers_of w self).
Proof.
  unfold observers_of.
  destruct (list_remove observer (class_observers w)) as [l'|] eqn:Hl.
  - left. destruct (list_remove_first _ _ _ Hl) as (pre & post & H1 & H2 & H3).
    eexists _, pre, post. split; [by apply detach_present|]. by simpl.
  - right. eexists. split; [by apply detach_absent|]. split; [|done].
    intros [r Hr]%list_remove_present. congruence.
Qed.

(** X2: [detach] completes exactly when the observer is in the list. *)
Theorem detach_completes_iff_member (self observer : nat) (w : World) :
  (exists w', detach self observer w = Some (Ok tt, w')) <->
  In observer (observers_of w self).
Proof.
  unfold observers_of. split.
  - intros [w' Hrun].
    destruct (list_remove observer (class_observers w)) as [l'|] eqn:Hl.
    + apply list_remove_first in Hl as (pre & post & -> & _).
      apply in_or_app. simpl. tauto.
    + rewrite (detach_absent _ _ _ Hl) in Hrun. discriminate Hrun.
  - intros [l' Hl]%list_remove_present. eexists. by apply detach_present.
Qed.

(** X3: an observer that occurs once in the list can be detached once; the
    second [detach] raises [ValueError], and the list stays as the first
    [detach] left it, without that observer. *)
Theorem second_detach_fails (self observer : nat) (w : World) :
  count_occ Nat.eq_dec (observers_of w self) observer = 1%nat ->
  exists w1 w2,
    detach self observer w = Some (Ok tt, w1) /\
    ~ In observer (observers_of w1 self) /\
    detach self observer w1 = Some (Raise ValueError, w2) /\
    observers_of w2 self = observers_of w1 self.
Proof.
  unfold observers_of. intros Hc.
  destruct (list_remove_present observer (class_observers w)) as [l' Hl'].
  { apply (count_occ_In Nat.eq_dec). lia. }
  assert (Hx : ~ In observer l').
  { apply (count_occ_not_In Nat.eq_dec). apply list_remove_count in Hl'. lia. }
  eexists _, _. split; [by apply detach_present|]. split; [exact Hx|].
  split; [apply detach_absent, list_remove_absent, Hx|done].
Qed.

Lemma second_detach_fails_witness :
  exists w1 w2,
    detach sbj observerB
      {| class_observers := [observerA; observerB]; instance_state := ∅;
         stdout := []; calls := [] |} = Some (Ok tt, w1) /\
    detach sbj observerB w1 = Some (Raise ValueError, w2) /\
    observers_of w2 sbj = [observerA].
Proof.
  destruct (second_detach_fails sbj observerB
    {| class_observers := [observerA; observerB]; instance_state := ∅;
       stdout := []; calls := [] |}) as (w1 & w2 & H1 & _ & H2 & H3);
    [by vm_compute|].
  exists w1, w2. split; [exact H1|]. split; [exact H2|].
  rewrite H3. rewrite (detach_present sbj observerB _ [observerA]) in H1
    by reflexivity.
  by injection H1 as <-.
Defined.

Lemma append_is_prepend (o : nat) (post : list nat) :
  post ++ [o] = o :: post <-> Forall (eq o) post.
Proof.
  induction post as [|x post IH]; simpl.
  - split; [constructor|done].
  - split.
    + intros [= -> H]. constructor; [done|]. by apply IH.
    + intros H. inversion H as [|? ? <- Hpost]; subst.
      f_equal. by apply IH.
Qed.

(** X4: detaching an observer of the list and attaching it again
    completes and moves its first occurrence to the end of the list.  The
    list is as before only when every entry after that occurrence is the
    same observer (so when it was the last entry); when another observer
    follows it, the order of notification has changed. *)
Theorem detach_attach_moves_to_end (self observer : nat) (w : World)
    (pre post : list nat) :
  observers_of w self = pre ++ observer :: post ->
  ~ In observer pre ->
  exists w',
    (detach self observer;; attach self observer) w = Some (Ok tt, w') /\
    observers_of w' self = pre ++ post ++ [observer] /\
    (observers_of w' self = observers_of w self <-> Forall (eq observer) post).
Proof.
  unfold observers_of. intros Hl Hx. eexists. split.
  - rewrite (bind_run _ _ _ _ _
      (detach_present self observer w (pre ++ post)
         ltac:(rewrite Hl; by apply list_remove_at_first))).
    apply attach_run.
  - cbn [class_observers]. rewrite <- app_assoc. split; [done|].
    rewrite Hl, <- append_is_prepend. split.
    + by intros H%app_inv_head.
    + by intros ->.
Qed.

Lemma detach_attach_moves_to_end_witness :
  exists w',
    (detach sbj observerA;; attach sbj observerA)
      {| class_observers := [observerA; observerB]; instance_state := ∅;
         stdout := []; calls := [] |} = Some (Ok tt, w') /\
    observers_of w' sbj = [observerB; observerA] /\
    observers_of w' sbj <> [observerA; observerB].
Proof.
  destruct (detach_attach_moves_to_end sbj observerA
    {| class_observers := [observerA; observerB]; instance_state := ∅;
       stdout := []; calls := [] |} [] [observerB])
    as (w' & Hrun & Hl & Hiff); [reflexivity|intros []|].
  exists w'. split; [exact Hrun|]. split; [exact Hl|].
  intros H. apply Hiff in H. inversion H as [|? ? Heq _]. discriminate Heq.
Defined.

(** X5: observers attached one after the other are appended in that
    order: the order of the [attach] calls is the order of the list, hence
    the order of notification. *)
Theorem attach_keeps_call_order (self : nat) (l : list nat) (w : World) :
  exists w',
    replay self (map CallAttach l) w = Some (map (fun _ => Ok tt) l, w') /\
    observers_of w' self = observers_of w self ++ l /\
    instance_state w' = instance_state w /\
    calls w' = calls w.
Proof.
  unfold observers_of. revert w. induction l as [|o l IH]; intros w.
  - exists w. simpl. by rewrite app_nil_r.
  - cbn [map replay run_subscription]. rewrite attach_run.
    destruct (IH {| class_observers := class_observers w ++ [o];
                    instance_state := instance_state w;
                    stdout := stdout w ++ [msg_attach];
                    calls := calls w |}) as (w' & -> & Hl & Hs & Hc).
    exists w'. split; [done|]. simpl in Hl, Hs, Hc.
    by rewrite Hl, <- app_assoc.
Qed.

(** ** More on notification *)

(** X6: with observers of the two classes [notify] always returns, given
    fuel above the length of the list.  It raises, and then [TypeError],
    exactly when the state is unset and the list is not empty; whether it
    completes or raises, it leaves the list of observers and every state as
    they were. *)
Theorem notify_outcomes (class_of : nat -> ObserverClass)
    (fuel self : nat) (w : World) :
  (length (observers_of w self) < fuel)%nat ->
  exists r w',
    notify (update_of class_of) fuel self w = Some (r, w') /\
    observers_of w' self = observers_of w self /\
    instance_state w' = instance_state w /\
    (r = Raise TypeError <->
       state_of w self = VNone /\ observers_of w self <> []) /\
    (r = Ok tt <->
       ~ (state_of w self = VNone /\ observers_of w self <> [])).
Proof.
  intros Hfuel. destruct (state_of w self) as [|n] eqn:Hs.
  - destruct fuel as [|fuel]; [lia|].
    destruct (observers_of w self) as [|o l] eqn:Hl.
    + eexists _, _. split.
      { rewrite notify_run. apply notify_loop_end.
        unfold observers_of in Hl. simpl. by rewrite Hl. }
      unfold observers_of in *. simpl. rewrite Hl.
      repeat split; try done; intros; intuition congruence.
    + eexists _, _. split; [by apply (notify_unset class_of fuel self o l)|].
      unfold observers_of in *. simpl. rewrite Hl.
      repeat split; try done; intros; intuition congruence.
  - eexists _, _. split; [by apply (notify_int class_of fuel self n)|].
    unfold observers_of. simpl.
    repeat split; try done; intros; intuition congruence.
Qed.

Lemma notify_outcomes_witness :
  exists r w',
    notify (update_of main_class_of) 3 sbj
      {| class_observers := [observerA; observerB];
         instance_state := {[ sbj := VInt 9 ]}; stdout := []; calls := [] |}
    = Some (r, w') /\
    observers_of w' sbj = [observerA; observerB].
Proof.
  destruct (notify_outcomes main_class_of 3 sbj
    {| class_observers := [observerA; observerB];
       instance_state := {[ sbj := VInt 9 ]}; stdout := []; calls := [] |})
    as (r & w' & Hrun & Hl & _); [vm_compute; lia|].
  exists r, w'. split; [exact Hrun|exact Hl].
Defined.

(** X7: [state] is per instance although the list is not: the assignment
    made by [do_some_business_logic] on one instance leaves the state of
    every other instance as it was. *)
Theorem business_logic_state_is_per_instance (class_of : nat -> ObserverClass)
    (fuel : nat) (draw : Z) (self s : nat) (w : World) :
  s <> self ->
  (length (observers_of w self) < fuel)%nat ->
  exists w',
    do_some_business_logic (update_of class_of) fuel draw self w = Some (Ok tt, w') /\
    state_of w' self = VInt draw /\
    state_of w' s = state_of w s.
Proof.
  intros Hne Hfuel. eexists. split; [by apply do_some_business_logic_run|].
  unfold state_of. cbn [instance_state].
  by rewrite lookup_insert_eq, lookup_insert_ne.
Qed.

Lemma business_logic_state_is_per_instance_witness :
  exists w',
    do_some_business_logic (update_of main_class_of) 1 7 5
      {| class_observers := []; instance_state := {[ 6%nat := VInt 2 ]};
         stdout := []; calls := [] |} = Some (Ok tt, w') /\
    state_of w' 5 = VInt 7 /\
    state_of w' 6 = VInt 2.
Proof.
  destruct (business_logic_state_is_per_instance main_class_of 1 7 5 6
    {| class_observers := []; instance_state := {[ 6%nat := VInt 2 ]};
       stdout := []; calls := [] |}) as (w' & Hrun & H5 & H6);
    [lia|vm_compute; lia|].
  exists w'. split; [exact Hrun|]. split; [exact H5|]. rewrite H6.
  by vm_compute.
Defined.

(** X8: the two thresholds overlap and leave no gap: when both observers
    are notified of an integer state, only A prints up to 4, both print
    from 5 to 7, A first, and only B prints from 8 on; there is no integer
    for which neither prints. *)
Theorem observers_cover_every_state (subject : nat) (w : World) (s : Z) :
  state_of w subject = VInt s ->
  (ConcreteObserverA_update subject;; ConcreteObserverB_update subject) w =
  Some (Ok tt,
        printed (if (s <=? 4)%Z then [msg_react_A]
                 else if (s <? 8)%Z then [msg_react_A; msg_react_B]
                 else [msg_react_B]) w).
Proof.
  intros Hs.
  rewrite (bind_run _ _ w (printed (reaction ConcreteObserverA s) w) tt)
    by (by rewrite ConcreteObserverA_update_run, Hs).
  rewrite ConcreteObserverB_update_run.
  unfold state_of in *. cbn [printed instance_state]. rewrite Hs.
  unfold reaction, printed. cbn [class_observers instance_state stdout calls].
  rewrite Z.gtb_ltb.
  destruct (Z.leb_spec s 4), (Z.ltb_spec s 8), (Z.ltb_spec 4 s);
    try lia; cbn [app]; by rewrite <- ?app_assoc, ?app_nil_r.
Qed.

Lemma observers_cover_every_state_witness :
  (ConcreteObserverA_update sbj;; ConcreteObserverB_update sbj)
    {| class_observers := []; instance_state := {[ sbj := VInt 6 ]};
       stdout := []; calls := [] |} =
  Some (Ok tt,
        {| class_observers := []; instance_state := {[ sbj := VInt 6 ]};
           stdout := [msg_react_A; msg_react_B]; calls := [] |}).
Proof.
  rewrite (observers_cover_every_state sbj _ 6) by (by vm_compute).
  reflexivity.
Defined.

(** ** The [__main__] block *)

(** X9: whatever the three draws, the [__main__] block runs to its end
    without an exception.  Both observers are called on the first two
    changes and only A on the third, B having been detached; the list ends
    as [observerA] alone and the state is the last draw. *)
Theorem main_completes (fuel : nat) (d1 d2 d3 : Z) :
  (2 < fuel)%nat ->
  exists w,
    main fuel d1 d2 d3 module_loaded = Some (Ok tt, w) /\
    observers_of w sbj = [observerA] /\
    state_of w sbj = VInt d3 /\
    calls w = [Call observerA sbj (VInt d1); Call observerB sbj (VInt d1);
               Call observerA sbj (VInt d2); Call observerB sbj (VInt d2);
               Call observerA sbj (VInt d3)] /\
    stdout w =
      [msg_attach; msg_attach] ++
      [msg_important; msg_changed (str (VInt d1)); msg_notifying] ++
      reaction ConcreteObserverA d1 ++ reaction ConcreteObserverB d1 ++
      [msg_important; msg_changed (str (VInt d2)); msg_notifying] ++
      reaction ConcreteObserverA d2 ++ reaction ConcreteObserverB d2 ++
      [msg_detach] ++
      [msg_important; msg_changed (str (VInt d3)); msg_notifying] ++
      reaction ConcreteObserverA d3.
Proof.
  intros Hfuel. unfold main. eexists. split.
  - erewrite bind_run by apply attach_run.
    erewrite bind_run by apply attach_run.
    erewrite bind_run
      by (apply do_some_business_logic_run; unfold observers_of; simpl; lia).
    erewrite bind_run
      by (apply do_some_business_logic_run; unfold observers_of; simpl; lia).
    erewrite bind_run by (by apply (detach_present _ _ _ [observerA])).
    apply do_some_business_logic_run. unfold observers_of. simpl. lia.
  - unfold observers_of, state_of.
    cbn [class_observers instance_state calls stdout].
    rewrite lookup_insert_eq.
    split; [done|]. split; [done|]. split; [done|].
    unfold module_loaded. cbn [class_observers stdout app flat_map].
    change (main_class_of observerA) with ConcreteObserverA.
    change (main_class_of observerB) with ConcreteObserverB.
    rewrite !app_nil_r.
    repeat (rewrite <- app_assoc || rewrite <- app_comm_cons).
    reflexivity.
Qed.

Lemma main_completes_witness :
  exists w,
    main 3 3 9 9 module_loaded = Some (Ok tt, w) /\
    observers_of w sbj = [observerA] /\
    state_of w sbj = VInt 9.
Proof.
  destruct (main_completes 3 3 9 9) as (w & Hrun & Hl & Hs & _); [lia|].
  exists w. split; [exact Hrun|]. split; [exact Hl|exact Hs].
Defined.

(** ** Observers that unsubscribe while they are notified *)

Lemma self_detaching_loop (self : nat) :
  forall (fuel : nat) (rest kept : list nat) (w : World),
    class_observers w = kept ++ rest ->
    List.NoDup (kept ++ rest) ->
    (length rest < fuel)%nat ->
    exists w' cs,
      notify_loop self_detaching_update fuel self (length kept) w
        = Some (Ok tt, w') /\
      class_observers w' = kept ++ odds rest /\
      calls w' = calls w ++ cs /\
      map callee cs = evens rest /\
      instance_state w' = instance_state w.
Proof.
  induction fuel as [|fuel IH]; intros rest kept w Hl Hnd Hfuel; [lia|].
  destruct rest as [|o rest].
  - exists w, []. split.
    + apply notify_loop_end. rewrite Hl, app_nil_r.
      by apply lookup_ge_None.
    + simpl. by rewrite Hl, !app_nil_r.
  - rewrite (notify_loop_next _ _ _ _ o)
      by (rewrite Hl; by apply list_lookup_middle).
    unfold mbind at 1. unfold M_bind at 1. cbn [log_call].
    pose proof (NoDup_remove_1 _ _ _ Hnd) as Hnd'.
    pose proof (NoDup_remove_2 _ _ _ Hnd) as Hfresh.
    erewrite bind_run; cycle 1.
    { apply (detach_present _ _ _ (kept ++ rest)).
      cbn [class_observers]. rewrite Hl. apply list_remove_at_first.
      intros Hin. apply Hfresh, in_or_app. by left. }
    destruct rest as [|o2 rest].
    + destruct fuel as [|fuel]; [simpl in Hfuel; lia|].
      eexists _, [_]. split.
      * apply notify_loop_end. cbn [class_observers].
        rewrite app_nil_r. apply lookup_ge_None. lia.
      * cbn [class_observers calls instance_state]. by rewrite !app_nil_r.
    + replace (S (length kept)) with (length (kept ++ [o2]))
        by (rewrite length_app; simpl; lia).
      edestruct (IH rest (kept ++ [o2])) as (w' & cs & Hrun & Hl' & Hcs & Hm & Hs);
        cycle 3.
      * exists w', (Call o self (state_of w self) :: cs).
        split; [exact Hrun|]. cbn [class_observers calls instance_state] in *.
        split; [by rewrite Hl', <- app_assoc|].
        split; [by rewrite Hcs, <- app_assoc|].
        split; [simpl; by rewrite Hm|exact Hs].
      * cbn [class_observers]. by rewrite <- app_assoc.
      * by rewrite <- app_assoc.
      * simpl in Hfuel. lia.
Qed.

(** X10: when every observer of a list without duplicates unsubscribes in
    its [update], one [notify] reaches only every other observer: removing
    the current entry shifts the rest of the list under the index of the
    loop, so the observers at positions 0, 2, 4, ... are called and
    detached, and those at positions 1, 3, 5, ... are skipped and stay in
    the list. *)
Theorem self_detaching_observers_skip_next (fuel self : nat) (w : World) :
  List.NoDup (observers_of w self) ->
  (length (observers_of w self) < fuel)%nat ->
  exists w',
    notify self_detaching_update fuel self w = Some (Ok tt, w') /\
    map callee (calls_since w w') = evens (observers_of w self) /\
    observers_of w' self = odds (observers_of w self) /\
    instance_state w' = instance_state w.
Proof.
  unfold observers_of. intros Hnd Hfuel. rewrite notify_run.
  destruct (self_detaching_loop self fuel (class_observers w) [] (announced w))
    as (w' & cs & Hrun & Hl & Hcs & Hm & Hs); [done|done|done|].
  exists w'. split; [exact Hrun|].
  unfold calls_since. simpl in Hl, Hcs, Hs.
  by rewrite Hcs, drop_app_length.
Qed.

Lemma self_detaching_observers_skip_next_witness :
  exists w',
    notify self_detaching_update 4 sbj
      {| class_observers := [1; 2; 3]%nat; instance_state := ∅;
         stdout := []; calls := [] |} = Some (Ok tt, w') /\
    map callee (calls w') = [1; 3]%nat /\
    observers_of w' sbj = [2%nat].
Proof.
  destruct (self_detaching_observers_skip_next 4 sbj
    {| class_observers := [1; 2; 3]%nat; instance_state := ∅;
       stdout := []; calls := [] |}) as (w' & Hrun & Hc & Hl & _).
  - unfold observers_of. simpl.
    repeat (constructor; [simpl; lia|]). constructor.
  - vm_compute. lia.
  - exists w'. split; [exact Hrun|]. split; [exact Hc|exact Hl].
Defined.

(** ** Invariants of the reachable stores *)

(** X11: every entry of the list of observers was passed to [attach]
    earlier, on some instance: nothing else puts an observer in the
    list. *)
Theorem observers_were_attached (class_of : nat -> ObserverClass)
    (cs : list method_call) (w : World) (o : nat) :
  reachable class_of cs w ->
  In o (class_observers w) ->
  exists self, In (MAttach self o) cs.
Proof.
  intros Hreach. revert o.
  induction Hreach as [|cs w c r w' Hreach IH Hrun]; intros o Ho; [destruct Ho|].
  apply run_method_effect in Hrun as [Hl _]. rewrite Hl in Ho.
  assert (Hold : In o (class_observers w) -> exists self, In (MAttach self o) (cs ++ [c])).
  { intros [self H]%IH. exists self. apply in_or_app. by left. }
  destruct c as [self o'|self o'|fuel self|fuel draw self]; try by apply Hold.
  - apply in_app_or in Ho as [Ho|[<-|[]]]; [by apply Hold|].
    exists self. apply in_or_app. right. by left.
  - destruct (list_remove o' (class_observers w)) as [l'|] eqn:Hrm;
      [|by apply Hold].
    apply Hold. apply list_remove_first in Hrm as (pre & post & -> & _ & ->).
    simpl in Ho. apply in_app_or in Ho. apply in_or_app. simpl. tauto.
Qed.

Lemma observers_were_attached_witness :
  exists self, In (MAttach self observerA) [MAttach sbj observerA].
Proof.
  apply (observers_were_attached main_class_of [MAttach sbj observerA]
    {| class_observers := [observerA]; instance_state := ∅;
       stdout := [msg_attach]; calls := [] |} observerA).
  - apply (reach_call main_class_of [] module_loaded (MAttach sbj observerA)
             (Ok tt) _ (reach_loaded main_class_of)).
    reflexivity.
  - simpl. tauto.
Defined.

(** X12: when every draw comes from [randrange(0, 10)], the state of any
    instance is, at any time, either unset or an integer from 0 to 9: no
    method stores anything else. *)
Theorem state_is_unset_or_a_draw (class_of : nat -> ObserverClass)
    (cs : list method_call) (w : World) (s : nat) :
  reachable class_of cs w ->
  Forall (fun c => match c with
                   | MBusinessLogic _ draw _ => In draw (randrange 0 10)
                   | _ => True
                   end) cs ->
  state_of w s = VNone \/ exists n, state_of w s = VInt n /\ 0 <= n < 10.
Proof.
  intros Hreach Hcs.
  assert (Hinv : forall s v, instance_state w !! s = Some v ->
                   exists n, v = VInt n /\ 0 <= n < 10).
  { clear s. induction Hreach as [|cs w c r w' Hreach IH Hrun]; intros s v.
    - simpl. by rewrite lookup_empty.
    - apply Forall_app in Hcs as [Hcs Hc]. apply Forall_inv in Hc.
      apply run_method_effect in Hrun as [_ Hst]. rewrite Hst.
      destruct c as [self o'|self o'|fuel self|fuel draw self];
        try by apply IH.
      destruct (decide (self = s)) as [->|Hne].
      + rewrite lookup_insert_eq. intros [= <-]. exists draw.
        by apply randrange_spec in Hc.
      + rewrite lookup_insert_ne by done. by apply IH. }
  unfold state_of. destruct (instance_state w !! s) as [v|] eqn:Hv;
    [right|by left].
  destruct (Hinv s v Hv) as (n & -> & Hn). by exists n.
Qed.

Lemma state_is_unset_or_a_draw_witness :
  state_of {| class_observers := []; instance_state := <[sbj := VInt 3]> ∅;
              stdout := [msg_important; msg_changed (str (VInt 3)); msg_notifying];
              calls := [] |} sbj = VNone \/
  exists n,
    state_of {| class_observers := []; instance_state := <[sbj := VInt 3]> ∅;
                stdout := [msg_important; msg_changed (str (VInt 3)); msg_notifying];
                calls := [] |} sbj = VInt n /\ 0 <= n < 10.
Proof.
  apply (state_is_unset_or_a_draw main_class_of [MBusinessLogic 1 3 sbj]).
  - apply (reach_call main_class_of [] module_loaded (MBusinessLogic 1 3 sbj)
             (Ok tt) _ (reach_loaded main_class_of)).
    by vm_compute.
  - constructor; [|constructor]. vm_compute. tauto.
Defined.



(** ** Any implementation of [Observer] *)

Lemma update_each_completes (update : nat -> nat -> M unit) (self : nat) :
  (forall o s w0, exists w1, update o s w0 = Some (Ok tt, w1)) ->
  forall (l : list nat) (w : World),
    exists w', update_each update self l w = Some (Ok tt, w').
Proof.
  intros Hok. induction l as [|o l IH]; intros w; [by exists w|].
  cbn [update_each]. unfold mbind, M_bind. cbn [log_call].
  match goal with |- context [update o self ?w0] =>
    destruct (Hok o self w0) as [w1 Hu] end.
  rewrite Hu. apply IH.
Qed.



(** X15: when every observer subscribes again in its [update], a [notify]
    on a list that is not empty never returns: each round appends an entry,
    so the index of the loop never reaches the end of the list, however
    many rounds are run. *)
Theorem self_attaching_observers_never_end (fuel self : nat) (w : World) :
  observers_of w self <> [] ->
  notify self_attaching_update fuel self w = None.
Proof.
  unfold observers_of. intros Hl. rewrite notify_run.
  assert (Hloop : forall fuel i w0,
            (i < length (class_observers w0))%nat ->
            notify_loop self_attaching_update fuel self i w0 = None).
  { clear. induction fuel as [|fuel IH]; intros i w0 Hi; [done|].
    destruct (lookup_lt_is_Some_2 _ _ Hi) as [o Ho].
    rewrite (notify_loop_next _ _ _ _ _ _ Ho).
    unfold mbind at 1. unfold M_bind at 1. cbn [log_call].
    erewrite bind_run by apply attach_run.
    apply IH. cbn [class_observers]. rewrite length_app. simpl. lia. }
  apply Hloop. simpl. destruct (class_observers w); [done|simpl; lia].
Qed.

Lemma self_attaching_observers_never_end_witness :
  notify self_attaching_update 50 sbj
    {| class_observers := [observerA]; instance_state := ∅;
       stdout := []; calls := [] |} = None.
Proof.
  apply self_attaching_observers_never_end. discriminate.
Defined.
